(** * The chat client of real-time-chat: [client/src/components/Chat.tsx]

    A shallow embedding of the React component [Chat]: its seven [useState]
    cells, the mount effect that binds the user identity, the six socket
    listeners and the click / change / submit handlers, together with the
    parts of the browser they act on (localStorage, the socket's outgoing
    events, [alert]). *)

From Stdlib Require Import ZArith NArith String Ascii.
From stdpp Require Import base option list gmap.

Local Open Scope string_scope.
Local Open Scope list_scope.
Local Open Scope N_scope.

(** ** JavaScript strings *)

(** A JavaScript string is a sequence of UTF-16 code units. *)
Definition code_unit := N.
Abbreviation jsstring := (list N).

(** An ASCII literal of the source, as a JavaScript string. *)
Definition js (s : string) : jsstring :=
  map N_of_ascii (list_ascii_of_string s).

(** Code units that [String.prototype.trim] strips: ECMAScript's WhiteSpace
    and LineTerminator productions (TAB, LF, VT, FF, CR, SP, NBSP, the
    Unicode space separators, LS, PS and the BOM). *)
Definition isWhiteSpace (c : code_unit) : bool :=
  (0x0009 <=? c) && (c <=? 0x000D)
  || (c =? 0x0020) || (c =? 0x00A0) || (c =? 0x1680)
  || (0x2000 <=? c) && (c <=? 0x200A)
  || (c =? 0x2028) || (c =? 0x2029) || (c =? 0x202F)
  || (c =? 0x205F) || (c =? 0x3000) || (c =? 0xFEFF).

Fixpoint trimStart (s : jsstring) : jsstring :=
  match s with
  | [] => []
  | c :: r => if isWhiteSpace c then trimStart r else s
  end.

Definition trimEnd (s : jsstring) : jsstring := rev (trimStart (rev s)).

(** [s.trim()] *)
Definition trim (s : jsstring) : jsstring := trimEnd (trimStart s).

(** ToBoolean on a string: the empty string is the only falsy one. *)
Definition truthy (s : jsstring) : bool :=
  match s with [] => false | _ :: _ => true end.

(** ToBoolean on [string | null], the type of [localStorage.getItem]. *)
Definition truthy_or_null (o : option jsstring) : bool :=
  match o with None => false | Some s => truthy s end.

(** [toUpperCase] restricted to what it does on ASCII letters; used to run
    the client on concrete inputs. *)
Definition upper_ascii_unit (c : code_unit) : code_unit :=
  if (0x61 <=? c) && (c <=? 0x7A) then c - 0x20 else c.

Definition upper_ascii (s : jsstring) : jsstring := map upper_ascii_unit s.

(** ** Wire data *)

(** [interface Message]; the timestamp is a [Date], kept as its epoch
    milliseconds. *)
Record Message := mkMessage {
  id : jsstring;
  content : jsstring;
  senderId : jsstring;
  timestamp : Z
}.

(** Arguments of [socket.emit]: the client only ever passes strings and
    object literals. *)
#[warnings="-register-all"]
Inductive value :=
  | VStr (s : jsstring)
  | VObj (fields : list (string * value)).

(** One call [socket.emit(name, ...args)]. *)
Record Emit := mkEmit {
  ev_name : string;
  ev_args : list value
}.

Section Client.

(** The JavaScript [number] type. The component stores and renders user
    counts and does no arithmetic on them, so the carrier is left open. *)
Variable number : Type.
Variable zero : number.

(** [String.prototype.toUpperCase], defined by the Unicode case tables of the
    runtime. *)
Variable toUpperCase : jsstring -> jsstring.

(** [uuidAt k] is what the [k]-th call of [crypto.randomUUID()] returns. *)
Variable uuidAt : nat -> jsstring.

(** [interface ServerToClientEvents] *)
Inductive ServerEvent :=
  | room_created (code : jsstring)
  | joined_room (roomCode : jsstring) (messages : list Message)
  | new_message (message : Message)
  | user_joined (userCount : number)
  | user_left (userCount : number)
  | error (message : jsstring).

(** ** Component state: the seven [useState] cells of [Chat] *)

Record State := mkState {
  roomCode : jsstring;
  inputCode : jsstring;
  message : jsstring;
  messages : list Message;
  connected : bool;
  users : number;
  userId : jsstring
}.

(** The initial values given to [useState]. *)
Definition initialState : State :=
  {| roomCode := []; inputCode := []; message := []; messages := [];
     connected := false; users := zero; userId := [] |}.

(** ** The world the component runs in *)

Record World := mkWorld {
  ui : State;
  localStorage : gmap jsstring jsstring;
  emitted : list Emit;      (* calls of socket.emit, oldest first *)
  alerts : list jsstring;   (* calls of alert, oldest first *)
  uuidCalls : nat           (* calls of crypto.randomUUID so far *)
}.

(** The world at page load: a fresh component over whatever the browser has
    kept in localStorage. *)
Definition freshWorld (store : gmap jsstring jsstring) (k : nat) : World :=
  {| ui := initialState; localStorage := store; emitted := []; alerts := [];
     uuidCalls := k |}.

(** ** A state monad over the world *)

Definition M (A : Type) : Type := World -> A * World.

Definition ret {A} (a : A) : M A := fun w => (a, w).

Definition bind {A B} (c : M A) (k : A -> M B) : M B :=
  fun w => let '(a, w') := c w in k a w'.

Definition exec {A} (c : M A) (w : World) : World := snd (c w).

Notation "x <- c ;; k" := (bind c (fun x => k))
  (at level 100, c at next level, right associativity).
Notation "c ;;; k" := (bind c (fun _ => k))
  (at level 100, right associativity).

Definition when (b : bool) (c : M unit) : M unit :=
  if b then c else ret tt.

(** *** Browser primitives *)

Definition getItem (key : jsstring) : M (option jsstring) :=
  fun w => (localStorage w !! key, w).

Definition setItem (key v : jsstring) : M unit :=
  fun w => (tt, {| ui := ui w; localStorage := <[key := v]> (localStorage w);
                   emitted := emitted w; alerts := alerts w;
                   uuidCalls := uuidCalls w |}).

Definition randomUUID : M jsstring :=
  fun w => (uuidAt (uuidCalls w),
            {| ui := ui w; localStorage := localStorage w;
               emitted := emitted w; alerts := alerts w;
               uuidCalls := S (uuidCalls w) |}).

Definition emit (name : string) (args : list value) : M unit :=
  fun w => (tt, {| ui := ui w; localStorage := localStorage w;
                   emitted := emitted w ++ [mkEmit name args];
                   alerts := alerts w; uuidCalls := uuidCalls w |}).

Definition alert (s : jsstring) : M unit :=
  fun w => (tt, {| ui := ui w; localStorage := localStorage w;
                   emitted := emitted w; alerts := alerts w ++ [s];
                   uuidCalls := uuidCalls w |}).

(** *** React state *)

(** The values a handler closes over: the state of the current render. *)
Definition rendered : M State := fun w => (ui w, w).

Definition update (f : State -> State) : M unit :=
  fun w => (tt, {| ui := f (ui w); localStorage := localStorage w;
                   emitted := emitted w; alerts := alerts w;
                   uuidCalls := uuidCalls w |}).

Definition setRoomCode (v : jsstring) : M unit :=
  update (fun s => {| roomCode := v; inputCode := inputCode s;
                      message := message s; messages := messages s;
                      connected := connected s; users := users s;
                      userId := userId s |}).

Definition setInputCode (v : jsstring) : M unit :=
  update (fun s => {| roomCode := roomCode s; inputCode := v;
                      message := message s; messages := messages s;
                      connected := connected s; users := users s;
                      userId := userId s |}).

Definition setMessage (v : jsstring) : M unit :=
  update (fun s => {| roomCode := roomCode s; inputCode := inputCode s;
                      message := v; messages := messages s;
                      connected := connected s; users := users s;
                      userId := userId s |}).

(** [setMessages] in its updater form, [setMessages(prev => f(prev))]. *)
Definition setMessagesWith (f : list Message -> list Message) : M unit :=
  update (fun s => {| roomCode := roomCode s; inputCode := inputCode s;
                      message := message s; messages := f (messages s);
                      connected := connected s; users := users s;
                      userId := userId s |}).

Definition setMessages (v : list Message) : M unit :=
  setMessagesWith (fun _ => v).

Definition setConnected (v : bool) : M unit :=
  update (fun s => {| roomCode := roomCode s; inputCode := inputCode s;
                      message := message s; messages := messages s;
                      connected := v; users := users s;
                      userId := userId s |}).

Definition setUsers (v : number) : M unit :=
  update (fun s => {| roomCode := roomCode s; inputCode := inputCode s;
                      message := message s; messages := messages s;
                      connected := connected s; users := v;
                      userId := userId s |}).

Definition setUserId (v : jsstring) : M unit :=
  update (fun s => {| roomCode := roomCode s; inputCode := inputCode s;
                      message := message s; messages := messages s;
                      connected := connected s; users := users s;
                      userId := v |}).

(** ** The component *)

(** The mount effect, lines 51-64: [storedUserId || crypto.randomUUID()]
    calls [randomUUID] only when the stored value is falsy. *)
Definition bindIdentity : M unit :=
  storedUserId <- getItem (js "chatUserId") ;;
  newUserId <- (match storedUserId with
                | Some s => if truthy s then ret s else randomUUID
                | None => randomUUID
                end) ;;
  when (negb (truthy_or_null storedUserId))
       (setItem (js "chatUserId") newUserId) ;;;
  setUserId newUserId ;;;
  emit "set-user-id" [VStr newUserId].

(** The socket listeners, lines 67-91. *)
Definition on (e : ServerEvent) : M unit :=
  match e with
  | room_created code => setRoomCode code
  | joined_room rc ms =>
      setRoomCode rc ;;; setMessages ms ;;; setConnected true
  | new_message m => setMessagesWith (fun prev => prev ++ [m])
  | user_joined userCount => setUsers userCount
  | user_left userCount => setUsers userCount
  | error err => alert err
  end.

Definition createRoom : M unit := emit "create-room" [].

Definition joinRoom : M unit :=
  s <- rendered ;;
  emit "join-room" [VStr (toUpperCase (inputCode s))].

Definition handleInputChange (v : jsstring) : M unit := setInputCode v.

Definition handleMessageChange (v : jsstring) : M unit := setMessage v.

Definition sendMessage : M unit :=
  s <- rendered ;;
  when (truthy (trim (message s)))
       (emit "send-message"
             [VObj [("roomCode", VStr (roomCode s));
                    ("message", VStr (message s));
                    ("userId", VStr (userId s))]] ;;;
        setMessage []).

(** ** The component as a transition system *)

Inductive Action :=
  | Mount
  | Receive (e : ServerEvent)
  | ClickCreateRoom
  | ClickJoinRoom
  | TypeInputCode (v : jsstring)
  | TypeMessage (v : jsstring)
  | SubmitMessage.

Definition handler (a : Action) : M unit :=
  match a with
  | Mount => bindIdentity
  | Receive e => on e
  | ClickCreateRoom => createRoom
  | ClickJoinRoom => joinRoom
  | TypeInputCode v => handleInputChange v
  | TypeMessage v => handleMessageChange v
  | SubmitMessage => sendMessage
  end.

Definition step (a : Action) (w : World) : World := exec (handler a) w.

Definition run (acts : list Action) (w : World) : World :=
  fold_left (fun w a => step a w) acts w.

End Client.

Arguments mkState {number}.
Arguments roomCode {number}.
Arguments inputCode {number}.
Arguments message {number}.
Arguments messages {number}.
Arguments connected {number}.
Arguments users {number}.
Arguments userId {number}.
Arguments mkWorld {number}.
Arguments ui {number}.
Arguments localStorage {number}.
Arguments emitted {number}.
Arguments alerts {number}.
Arguments uuidCalls {number}.
Arguments room_created {number}.
Arguments joined_room {number}.
Arguments new_message {number}.
Arguments user_joined {number}.
Arguments user_left {number}.
Arguments error {number}.
Arguments Mount {number}.
Arguments Receive {number}.
Arguments ClickCreateRoom {number}.
Arguments ClickJoinRoom {number}.
Arguments TypeInputCode {number}.
Arguments TypeMessage {number}.
Arguments SubmitMessage {number}.
Arguments initialState {number}.
Arguments freshWorld {number}.
Arguments exec {number A}.
Arguments bindIdentity {number}.
Arguments on {number}.
Arguments createRoom {number}.
Arguments joinRoom {number}.
Arguments handleInputChange {number}.
Arguments handleMessageChange {number}.
Arguments sendMessage {number}.
Arguments handler {number}.
Arguments step {number}.
Arguments run {number}.

(** ** The client-to-server contract *)

(** The names of [interface ClientToServerEvents], lines 23-28. *)
Definition clientEventNames : list string :=
  ["create-room"; "join-room"; "send-message"; "set-user-id"].

Definition isStr (v : value) : bool :=
  match v with VStr _ => true | VObj _ => false end.

(** An object with exactly the string-valued fields [keys], in that order. *)
Definition isRecordOfStrings (keys : list string) (v : value) : bool :=
  match v with
  | VStr _ => false
  | VObj fields =>
      bool_decide (map fst fields = keys) && forallb isStr (map snd fields)
  end.

(** [wellShaped e]: the call [e] type-checks against
    [ClientToServerEvents]. *)
Definition wellShaped (e : Emit) : bool :=
  if String.eqb (ev_name e) "create-room" then
    match ev_args e with [] => true | _ => false end
  else if String.eqb (ev_name e) "join-room" then
    match ev_args e with [v] => isStr v | _ => false end
  else if String.eqb (ev_name e) "send-message" then
    match ev_args e with
    | [v] => isRecordOfStrings ["roomCode"; "message"; "userId"] v
    | _ => false
    end
  else if String.eqb (ev_name e) "set-user-id" then
    match ev_args e with [v] => isStr v | _ => false end
  else false.

(** An emitted event fits the contract: one of the four names, with that
    name's payload. *)
Definition conforms (e : Emit) : Prop :=
  wellShaped e = true /\ ev_name e ∈ clientEventNames.

(** The payload of [send-message] built from the three fields. *)
Definition sendMessagePayload (rc msg uid : jsstring) : value :=
  VObj [("roomCode", VStr rc); ("message", VStr msg); ("userId", VStr uid)].

(** The localStorage key of the stored identifier. *)
Definition chatUserId : jsstring := js "chatUserId".

(** ** A concrete runtime, to run the client on examples *)

Module Demo.

(** Counts are integers here. *)
Definition number : Type := Z.

(** A deterministic stand-in for [crypto.randomUUID]: distinct 36-unit
    strings in the version-4 layout. *)
Definition uuidAt (k : nat) : jsstring :=
  js "3f2b8c1e-7a4d-4e9b-9c6f-0000000000" ++
  [48 + N.of_nat (k / 10 mod 10); 48 + N.of_nat (k mod 10)].

Definition fresh (store : gmap jsstring jsstring) : World number :=
  freshWorld 0%Z store 0.

(** One action, and a sequence of actions, on this runtime. *)
Definition act (a : Action number) (w : World number) : World number :=
  step upper_ascii uuidAt a w.

Definition play (acts : list (Action number)) (w : World number) : World number :=
  run upper_ascii uuidAt acts w.

Definition hi : Message :=
  {| id := js "m1"; content := js "hi"; senderId := js "alice";
     timestamp := 1730600000000%Z |}.

Definition yo : Message :=
  {| id := js "m2"; content := js "yo"; senderId := js "bob";
     timestamp := 1730600001000%Z |}.

(** A joined client holding one message, with [" hi "] typed in. *)
Definition chatting : World number :=
  {| ui := {| roomCode := js "AB12CD"; inputCode := js "ab12cd";
              message := js " hi "; messages := [hi]; connected := true;
              users := 2%Z; userId := js "alice" |};
     localStorage := {[ chatUserId := js "alice" ]};
     emitted := []; alerts := []; uuidCalls := 0 |}.

(** The same client with only blanks typed in. *)
Definition blank : World number :=
  {| ui := {| roomCode := js "AB12CD"; inputCode := js "ab12cd";
              message := js "   "; messages := [hi]; connected := true;
              users := 2%Z; userId := js "alice" |};
     localStorage := {[ chatUserId := js "alice" ]};
     emitted := []; alerts := []; uuidCalls := 0 |}.

End Demo.

(** ** The rendered view: the JSX of lines 127-212 *)

(** The functions of the component that the JSX binds to events. *)
Inductive Callback :=
  | cb_createRoom
  | cb_joinRoom
  | cb_handleInputChange
  | cb_handleMessageChange
  | cb_sendMessage.

#[global] Instance Callback_eq_dec : EqDecision Callback.
Proof. solve_decision. Defined.

(** The props the JSX passes. [RefMessagesEnd] is [ref={messagesEndRef}]. *)
Inductive Attr :=
  | ClassName (c : string)
  | OnClick (cb : Callback)
  | OnChange (cb : Callback)
  | OnSubmit (cb : Callback)
  | Value (v : jsstring)
  | Placeholder (p : string)
  | Size (sz : string)
  | ButtonType (t : string)
  | Key (k : jsstring)
  | RefMessagesEnd.

#[global] Instance Attr_eq_dec : EqDecision Attr.
Proof. solve_decision. Defined.

Definition isHandler (a : Attr) : bool :=
  match a with
  | OnClick _ | OnChange _ | OnSubmit _ => true
  | _ => false
  end.

Definition attrKey (a : Attr) : option jsstring :=
  match a with Key k => Some k | _ => None end.

Definition attrClass (a : Attr) : option string :=
  match a with ClassName c => Some c | _ => None end.

Section View.

Variable number : Type.
Variable toUpperCase : jsstring -> jsstring.
Variable uuidAt : nat -> jsstring.

(** A React element tree: literal text, an interpolated string, the
    interpolated user count, or an element with its props and children. *)
#[warnings="-register-all"]
Inductive Node :=
  | Text (s : string)
  | Str (s : jsstring)
  | Num (n : number)
  | Elem (tag : string) (attrs : list Attr) (children : list Node).

(** One message bubble, lines 173-188: on the right and in the primary
    colour when [msg.senderId === userId]. *)
Definition bubble (uid : jsstring) (msg : Message) : Node :=
  let own := bool_decide (senderId msg = uid) in
  Elem "div"
    [Key (id msg);
     ClassName (String.append "flex "
                  (if own then "justify-end" else "justify-start"))]
    [Elem "div"
       [ClassName (String.append "rounded-lg px-4 py-2 max-w-[70%] "
                     (if own then "bg-primary text-primary-foreground"
                      else "bg-muted"))]
       [Str (content msg)]].

(** The branch of [!connected], lines 135-164. [roomCode && (...)] adds the
    share panel only for a truthy room code. *)
Definition lobby (s : State number) : Node :=
  Elem "div" [ClassName "space-y-4"]
    ([Elem "Button"
        [OnClick cb_createRoom; ClassName "w-full text-lg py-6"; Size "lg"]
        [Text "Create New Room"];
      Elem "div" [ClassName "flex gap-2"]
        [Elem "Input"
           [Value (inputCode s); OnChange cb_handleInputChange;
            Placeholder "Enter Room Code"; ClassName "text-lg py-5"] [];
         Elem "Button" [OnClick cb_joinRoom; Size "lg"; ClassName "px-8"]
           [Text "Join Room"]]]
     ++ (if truthy (roomCode s)
         then [Elem "div" [ClassName "text-center p-6 bg-muted rounded-lg"]
                 [Elem "p" [ClassName "text-sm text-muted-foreground mb-2"]
                    [Text "Share this code with your friend"];
                  Elem "span" [ClassName "font-mono text-2xl font-bold"]
                    [Str (roomCode s)]]]
         else [])).

(** The other branch, lines 166-207. *)
Definition chat (s : State number) : Node :=
  Elem "div" [ClassName "space-y-4"]
    [Elem "div"
       [ClassName "flex items-center justify-between text-sm text-muted-foreground bg-muted p-3 rounded-lg"]
       [Elem "span" []
          [Text "Room Code: ";
           Elem "span" [ClassName "font-mono font-bold"] [Str (roomCode s)]];
        Elem "span" [] [Text "Users: "; Num (users s); Text "/2"]];
     Elem "div"
       [ClassName "h-[500px] overflow-y-auto border rounded-lg p-4 space-y-4"]
       (map (bubble (userId s)) (messages s)
        ++ [Elem "div" [RefMessagesEnd] []]);
     Elem "form" [OnSubmit cb_sendMessage; ClassName "flex gap-2"]
       [Elem "Input"
          [Value (message s); OnChange cb_handleMessageChange;
           Placeholder "Type a message..."; ClassName "text-lg py-6"] [];
        Elem "Button" [ButtonType "submit"; Size "lg"; ClassName "px-8"]
          [Text "Send"]]].

(** What [Chat] returns. *)
Definition render (s : State number) : Node :=
  Elem "div"
    [ClassName "container mx-auto max-w-2xl p-4 h-screen flex items-center justify-center"]
    [Elem "Card" [ClassName "w-full"]
       [Elem "CardHeader" [ClassName "space-y-1"]
          [Elem "CardTitle" [ClassName "text-2xl font-bold text-center"]
             [Text "Real-time Chat"]];
        Elem "CardContent" []
          [if negb (connected s) then lobby s else chat s]]].

(** *** Reading a tree *)

(** The event bindings of a tree, in document order. *)
Fixpoint handlersOf (n : Node) : list Attr :=
  match n with
  | Elem _ attrs children =>
      filter (fun a => isHandler a = true) attrs ++ flat_map handlersOf children
  | _ => []
  end.

(** The interpolated strings of a tree, in document order. *)
Fixpoint stringsOf (n : Node) : list jsstring :=
  match n with
  | Str s => [s]
  | Elem _ _ children => flat_map stringsOf children
  | _ => []
  end.

(** The interpolated numbers of a tree, in document order. *)
Fixpoint numbersOf (n : Node) : list number :=
  match n with
  | Num k => [k]
  | Elem _ _ children => flat_map numbersOf children
  | _ => []
  end.

(** The [value] props of a tree, in document order: what the inputs show. *)
Fixpoint valuesOf (n : Node) : list jsstring :=
  match n with
  | Elem _ attrs children =>
      omap (fun a => match a with Value v => Some v | _ => None end) attrs
      ++ flat_map valuesOf children
  | _ => []
  end.

(** The keyed elements of a tree, in document order: key, class names and
    the strings shown inside. *)
Fixpoint keyedOf (n : Node) : list (jsstring * list string * list jsstring) :=
  match n with
  | Elem _ attrs children =>
      match omap attrKey attrs with
      | k :: _ => [(k, omap attrClass attrs, flat_map stringsOf children)]
      | [] => []
      end ++ flat_map keyedOf children
  | _ => []
  end.

(** *** Who can do what *)

(** The binding a user action goes through; [None] for what the user does
    not trigger (the mount effect, events from the server). *)
Definition triggerOf (a : Action number) : option Attr :=
  match a with
  | ClickCreateRoom => Some (OnClick cb_createRoom)
  | ClickJoinRoom => Some (OnClick cb_joinRoom)
  | TypeInputCode _ => Some (OnChange cb_handleInputChange)
  | TypeMessage _ => Some (OnChange cb_handleMessageChange)
  | SubmitMessage => Some (OnSubmit cb_sendMessage)
  | Mount | Receive _ => None
  end.

(** A user action is possible when its binding is on screen. *)
Definition enabled (s : State number) (a : Action number) : bool :=
  match triggerOf a with
  | Some h => bool_decide (h ∈ handlersOf (render s))
  | None => true
  end.

(** One action on the rendered component: an action whose control is not on
    screen cannot happen and leaves the world as it is. *)
Definition guarded (a : Action number) (w : World number) : World number :=
  if enabled (ui w) a then step toUpperCase uuidAt a w else w.

Definition drive (acts : list (Action number)) (w : World number)
  : World number :=
  fold_left (fun w a => guarded a w) acts w.

(** *** Reading a sequence of actions *)

Definition isMount (a : Action number) : bool :=
  match a with Mount => true | _ => false end.

Definition isJoinedRoom (a : Action number) : bool :=
  match a with Receive (joined_room _ _) => true | _ => false end.

Definition isRoomEvent (a : Action number) : bool :=
  match a with
  | Receive (room_created _) | Receive (joined_room _ _) => true
  | _ => false
  end.

Definition isMessagePush (a : Action number) : bool :=
  match a with
  | Receive (joined_room _ _) | Receive (new_message _) => true
  | _ => false
  end.

(** The error strings received, oldest first. *)
Definition errorsOf (acts : list (Action number)) : list jsstring :=
  omap (fun a => match a with Receive (error err) => Some err | _ => None end)
       acts.

(** The messages pushed one at a time, oldest first. *)
Definition newMessagesOf (acts : list (Action number)) : list Message :=
  omap (fun a => match a with Receive (new_message m) => Some m | _ => None end)
       acts.

(** What was emitted on the way from [w] to [w']. *)
Definition emittedSince (w w' : World number) : list Emit :=
  drop (length (emitted w)) (emitted w').

End View.

Arguments Text {number}.
Arguments Str {number}.
Arguments Num {number}.
Arguments Elem {number}.
Arguments bubble {number}.
Arguments lobby {number}.
Arguments chat {number}.
Arguments render {number}.
Arguments handlersOf {number}.
Arguments stringsOf {number}.
Arguments numbersOf {number}.
Arguments valuesOf {number}.
Arguments keyedOf {number}.
Arguments triggerOf {number}.
Arguments enabled {number}.
Arguments guarded {number}.
Arguments drive {number}.
Arguments isMount {number}.
Arguments isJoinedRoom {number}.
Arguments isRoomEvent {number}.
Arguments isMessagePush {number}.
Arguments errorsOf {number}.
Arguments newMessagesOf {number}.
Arguments emittedSince {number}.

(** * Properties *)

(** ** Trimming *)

Lemma trimStart_nil_iff (s : jsstring) :
  trimStart s = [] <-> forallb isWhiteSpace s = true.
Proof.
  induction s as [|c r IH]; simpl; [tauto|].
  destruct (isWhiteSpace c); simpl; [exact IH|].
  split; discriminate.
Qed.

Lemma trimStart_head (s : jsstring) (c : code_unit) (r : jsstring) :
  trimStart s = c :: r -> isWhiteSpace c = false.
Proof.
  induction s as [|d t IH]; simpl; [discriminate|].
  destruct (isWhiteSpace d) eqn:E; [exact IH|].
  intros [= <- _]. exact E.
Qed.

Lemma forallb_rev_true (f : N -> bool) (s : jsstring) :
  forallb f (rev s) = true <-> forallb f s = true.
Proof.
  rewrite !forallb_forall. split; intros H x Hx; apply H.
  - by apply in_rev in Hx.
  - by apply in_rev.
Qed.

(** A string trims to the empty string exactly when it holds nothing but
    white space. *)
Lemma trim_nil_iff (s : jsstring) :
  trim s = [] <-> forallb isWhiteSpace s = true.
Proof.
  unfold trim, trimEnd. split.
  - intros H. apply trimStart_nil_iff.
    apply (f_equal (@rev N)) in H. rewrite rev_involutive in H. simpl in H.
    apply trimStart_nil_iff in H. apply (proj1 (forallb_rev_true _ _)) in H.
    destruct (trimStart s) as [|c r] eqn:E; [reflexivity|].
    apply trimStart_head in E. cbn [forallb] in H.
    rewrite E in H. discriminate.
  - intros H. apply trimStart_nil_iff in H. rewrite H. reflexivity.
Qed.

Lemma truthy_true_iff (s : jsstring) : truthy s = true <-> s <> [].
Proof. destruct s; simpl; split; congruence. Qed.

Lemma truthy_false_iff (s : jsstring) : truthy s = false <-> s = [].
Proof. destruct s; simpl; split; congruence. Qed.

Lemma app_one_neq {A} (l : list A) (x : A) : l ++ [x] <> l.
Proof.
  intros H. apply (f_equal (@length A)) in H.
  rewrite length_app in H. simpl in H. lia.
Qed.

(** Unfolds one handler down to the world it returns. *)
Ltac unfold_handler :=
  unfold step, handler, exec, sendMessage, joinRoom, createRoom, on,
    handleInputChange, handleMessageChange, bindIdentity, when, bind, ret,
    rendered, getItem, setItem, randomUUID, emit, alert, setRoomCode,
    setInputCode, setMessage, setMessages, setMessagesWith, setConnected,
    setUsers, setUserId, update in *;
  simpl in *.

Section ClientProperties.

Variable number : Type.
Variable toUpperCase : jsstring -> jsstring.
Variable uuidAt : nat -> jsstring.

Implicit Types (w : World number) (a : Action number) (m : Message).

(** ** Sending *)

(** What [sendMessage] does in each branch of its guard. *)
Lemma sendMessage_nonblank w :
  trim (message (ui w)) <> [] ->
  exec sendMessage w =
    {| ui := {| roomCode := roomCode (ui w); inputCode := inputCode (ui w);
                message := []; messages := messages (ui w);
                connected := connected (ui w); users := users (ui w);
                userId := userId (ui w) |};
       localStorage := localStorage w;
       emitted := emitted w ++
         [mkEmit "send-message"
            [sendMessagePayload (roomCode (ui w)) (message (ui w))
                                (userId (ui w))]];
       alerts := alerts w; uuidCalls := uuidCalls w |}.
Proof.
  intros H. apply truthy_true_iff in H. unfold_handler.
  rewrite H. reflexivity.
Qed.

Lemma sendMessage_blank w :
  trim (message (ui w)) = [] -> exec sendMessage w = w.
Proof.
  intros H. apply truthy_false_iff in H. unfold_handler.
  rewrite H. reflexivity.
Qed.

(** C1. For every state of the client, submitting the message form emits a
    [send-message] event if and only if the current message text trims to a
    non-empty string; when the text trims to empty, no event is emitted and
    the message input state (indeed the whole client) is left unchanged. *)
Theorem sendMessage_emits_iff_nonblank w :
  ((exists args, emitted (exec sendMessage w)
                 = emitted w ++ [mkEmit "send-message" args])
   <-> trim (message (ui w)) <> [])
  /\ (trim (message (ui w)) = [] ->
      emitted (exec sendMessage w) = emitted w
      /\ message (ui (exec sendMessage w)) = message (ui w)
      /\ exec sendMessage w = w).
Proof.
  split.
  - split.
    + intros [args Hargs] Hblank.
      rewrite (sendMessage_blank w Hblank) in Hargs.
      symmetry in Hargs. exact (app_one_neq _ _ Hargs).
    + intros Hne. rewrite (sendMessage_nonblank w Hne). simpl. eauto.
  - intros Hblank. rewrite (sendMessage_blank w Hblank). auto.
Qed.

(** C10. When a message whose trim is non-empty is submitted, the emitted
    [send-message] payload carries the text of the input exactly as typed,
    untrimmed, next to the room code and the user id, and the message input
    is then reset to the empty string. *)
Theorem sendMessage_sends_untrimmed_and_clears w :
  trim (message (ui w)) <> [] ->
  emitted (exec sendMessage w)
    = emitted w ++
      [mkEmit "send-message"
         [VObj [("roomCode", VStr (roomCode (ui w)));
                ("message", VStr (message (ui w)));
                ("userId", VStr (userId (ui w)))]]]
  /\ message (ui (exec sendMessage w)) = [].
Proof.
  intros Hne. rewrite (sendMessage_nonblank w Hne). split; reflexivity.
Qed.

(** [sendMessage] never touches the message list, whichever branch runs. *)
Lemma sendMessage_messages w :
  messages (ui (exec sendMessage w)) = messages (ui w).
Proof.
  unfold_handler. destruct (truthy (trim (message (ui w)))); reflexivity.
Qed.

(** ** Receiving *)

Lemma on_new_message m w :
  messages (ui (exec (on (new_message m)) w)) = messages (ui w) ++ [m].
Proof. reflexivity. Qed.

Lemma on_joined_room rc ms w :
  ui (exec (on (joined_room rc ms)) w)
  = {| roomCode := rc; inputCode := inputCode (ui w);
       message := message (ui w); messages := ms; connected := true;
       users := users (ui w); userId := userId (ui w) |}.
Proof. reflexivity. Qed.

(** A burst of [new-message] events lands in the list in arrival order. *)
Lemma run_new_messages (ms : list Message) w :
  messages (ui (run toUpperCase uuidAt (map (fun m => Receive (new_message m)) ms) w))
  = messages (ui w) ++ ms.
Proof.
  revert w. induction ms as [|m ms IH]; intros w; simpl.
  - by rewrite app_nil_r.
  - rewrite IH. unfold step, handler. rewrite on_new_message.
    by rewrite <- app_assoc.
Qed.

(** C2 (amended). Submitting a message never modifies the rendered message
    list, and no action of the client changes it except two pushes from the
    server: [new-message], which appends the pushed message, and
    [joined-room], which installs the pushed snapshot. *)
Theorem messages_change_only_on_server_push a w :
  messages (ui (exec sendMessage w)) = messages (ui w)
  /\ (messages (ui (step toUpperCase uuidAt a w)) = messages (ui w)
      \/ (exists m, a = Receive (new_message m)
           /\ messages (ui (step toUpperCase uuidAt a w))
              = messages (ui w) ++ [m])
      \/ (exists rc ms, a = Receive (joined_room rc ms)
           /\ messages (ui (step toUpperCase uuidAt a w)) = ms)).
Proof.
  split; [apply sendMessage_messages|].
  destruct a as [|e| | | | |].
  - left. unfold_handler.
    destruct (localStorage w !! js "chatUserId") as [s|]; simpl;
      [destruct (truthy s)|]; reflexivity.
  - destruct e as [c|rc ms|m|n|n|err].
    + left; reflexivity.
    + right; right. exists rc, ms. split; reflexivity.
    + right; left. exists m. split; reflexivity.
    + left; reflexivity.
    + left; reflexivity.
    + left; reflexivity.
  - left; reflexivity.
  - left; reflexivity.
  - left; reflexivity.
  - left; reflexivity.
  - left. apply sendMessage_messages.
Qed.

(** C4. For every [new-message] event and every prior message list, the
    listener puts the received message at the end of [messages]: the list
    grows by one, the messages held before stay where they were, unchanged
    and in the same order, and a run of such events is mirrored in arrival
    order. *)
Theorem new_message_appends m (ms : list Message) w :
  let w' := step toUpperCase uuidAt (Receive (new_message m)) w in
  messages (ui w') = messages (ui w) ++ [m]
  /\ take (length (messages (ui w))) (messages (ui w')) = messages (ui w)
  /\ messages (ui w') !! length (messages (ui w)) = Some m
  /\ length (messages (ui w')) = S (length (messages (ui w)))
  /\ messages (ui (run toUpperCase uuidAt
                     (map (fun x => Receive (new_message x)) ms) w))
     = messages (ui w) ++ ms.
Proof.
  cbv zeta. unfold step, handler. rewrite on_new_message.
  repeat split.
  - by rewrite take_app_length.
  - by rewrite list_lookup_middle.
  - rewrite length_app. simpl. lia.
  - apply run_new_messages.
Qed.

(** C5. For every [joined-room] event the client sets [messages] to exactly
    the received list, element for element, whatever it held before; sets
    [roomCode] to the received code; and sets [connected] to true. *)
Theorem joined_room_installs_snapshot (rc : jsstring) (ms : list Message) w :
  let w' := step toUpperCase uuidAt (Receive (joined_room rc ms)) w in
  messages (ui w') = ms
  /\ (forall i, messages (ui w') !! i = ms !! i)
  /\ roomCode (ui w') = rc
  /\ connected (ui w') = true.
Proof. cbv zeta. unfold step, handler. rewrite on_joined_room. auto. Qed.

(** C8. For every [error] event the client passes the received string,
    as it is, to [alert], and the listener changes none of the client's
    state: all seven cells, the stored identifier and the outgoing events
    are as before. *)
Theorem error_alerts_and_keeps_state (err : jsstring) w :
  let w' := step toUpperCase uuidAt (Receive (error err)) w in
  alerts w' = alerts w ++ [err]
  /\ ui w' = ui w
  /\ roomCode (ui w') = roomCode (ui w)
  /\ messages (ui w') = messages (ui w)
  /\ connected (ui w') = connected (ui w)
  /\ users (ui w') = users (ui w)
  /\ userId (ui w') = userId (ui w)
  /\ localStorage w' = localStorage w
  /\ emitted w' = emitted w.
Proof. cbv zeta. repeat split. Qed.

(** C9. For every [user-joined] or [user-left] event the client sets
    [users] to exactly the received count and changes no other cell:
    [messages], [roomCode], [connected] and [userId] (and the two input
    cells) are as before. *)
Theorem presence_sets_users_only (userCount : number) (e : ServerEvent number) w :
  let w' := step toUpperCase uuidAt (Receive e) w in
  e = user_joined userCount \/ e = user_left userCount ->
  users (ui w') = userCount
  /\ messages (ui w') = messages (ui w)
  /\ roomCode (ui w') = roomCode (ui w)
  /\ connected (ui w') = connected (ui w)
  /\ userId (ui w') = userId (ui w)
  /\ inputCode (ui w') = inputCode (ui w)
  /\ message (ui w') = message (ui w)
  /\ emitted w' = emitted w
  /\ alerts w' = alerts w.
Proof. cbv zeta. intros [-> | ->]; repeat split. Qed.

(** ** Joining *)

(** C3. For every string typed into the room-code field, clicking Join
    emits [join-room] with that string put through [toUpperCase], and
    nothing else. *)
Theorem joinRoom_emits_uppercased (typed : jsstring) w :
  emitted (exec (joinRoom toUpperCase) w)
  = emitted w ++ [mkEmit "join-room" [VStr (toUpperCase (inputCode (ui w)))]]
  /\ emitted (run toUpperCase uuidAt [TypeInputCode typed; ClickJoinRoom] w)
     = emitted w ++ [mkEmit "join-room" [VStr (toUpperCase typed)]].
Proof. split; reflexivity. Qed.

(** ** What goes out on the socket *)

(** One action appends to the log of outgoing events, and what it appends
    fits the contract. *)
Lemma step_emits_conforming a w :
  exists new, emitted (step toUpperCase uuidAt a w) = emitted w ++ new
              /\ Forall conforms new.
Proof.
  assert (Hnone : forall l : list Emit, l = l ++ [] /\ Forall conforms [])
    by (intros l; split; [by rewrite app_nil_r | constructor]).
  assert (Hin : forall n, In n clientEventNames -> n ∈ clientEventNames)
    by (intros n Hn; by apply list_elem_of_In).
  assert (Hone : forall e, wellShaped e = true -> In (ev_name e) clientEventNames ->
                           Forall conforms [e])
    by (intros e H1 H2; apply Forall_cons_2;
        [split; [exact H1 | exact (Hin _ H2)] | constructor]).
  destruct a as [|e| | | | |].
  - unfold_handler.
    destruct (localStorage w !! js "chatUserId") as [s|]; simpl;
      [destruct (truthy s)|]; simpl;
      (eexists; split; [reflexivity|apply Hone; [reflexivity|simpl; tauto]]).
  - destruct e; exists []; apply Hnone.
  - eexists; split; [reflexivity|apply Hone; [reflexivity|simpl; tauto]].
  - eexists; split; [reflexivity|apply Hone; [reflexivity|simpl; tauto]].
  - exists []; apply Hnone.
  - exists []; apply Hnone.
  - unfold_handler. destruct (truthy (trim (message (ui w)))); simpl.
    + eexists; split; [reflexivity|apply Hone; [reflexivity|simpl; tauto]].
    + exists []; apply Hnone.
Qed.

Lemma run_emits_conforming (acts : list (Action number)) w :
  exists new, emitted (run toUpperCase uuidAt acts w) = emitted w ++ new
              /\ Forall conforms new.
Proof.
  revert w. induction acts as [|a acts IH]; intros w; simpl.
  - exists []. split; [by rewrite app_nil_r | constructor].
  - destruct (step_emits_conforming a w) as (n1 & E1 & F1).
    destruct (IH (step toUpperCase uuidAt a w)) as (n2 & E2 & F2).
    exists (n1 ++ n2). split.
    + by rewrite E2, E1, <- app_assoc.
    + by apply Forall_app.
Qed.

Lemma bindIdentity_emits w :
  exists u, emitted (exec (bindIdentity uuidAt) w)
            = emitted w ++ [mkEmit "set-user-id" [VStr u]].
Proof.
  unfold_handler.
  destruct (localStorage w !! js "chatUserId") as [s|]; simpl;
    [destruct (truthy s)|]; simpl; eexists; reflexivity.
Qed.

(** C7. Every event the client emits is one of exactly four names, each with
    the payload of the contract: [set-user-id] with one string,
    [create-room] with no payload, [join-room] with one string, and
    [send-message] with one object [{roomCode, message, userId}] of strings.
    This holds for what any sequence of actions adds to the log from any
    world, hence for the whole log of a freshly loaded page; and each of the
    four names is emitted in some run of a freshly loaded page. *)
Theorem emitted_events_conform
    (acts : list (Action number)) (zero : number)
    (store : gmap jsstring jsstring) (k : nat) w :
  Forall conforms
    (emitted (run toUpperCase uuidAt acts (freshWorld zero store k)))
  /\ (exists new, emitted (run toUpperCase uuidAt acts w) = emitted w ++ new
                  /\ Forall conforms new)
  /\ Forall (fun name => exists acts' args,
                emitted (run toUpperCase uuidAt acts' (freshWorld zero store k))
                = [mkEmit name args])
       clientEventNames.
Proof.
  split; [|split].
  - destruct (run_emits_conforming acts (freshWorld zero store k))
      as (new & E & F).
    rewrite E. exact F.
  - apply run_emits_conforming.
  - unfold clientEventNames. repeat apply Forall_cons_2; [| | | |constructor].
    + exists [ClickCreateRoom]. eexists. reflexivity.
    + exists [ClickJoinRoom]. eexists. reflexivity.
    + exists [TypeMessage (js "hi"); SubmitMessage]. eexists. reflexivity.
    + exists [Mount].
      destruct (bindIdentity_emits (freshWorld zero store k)) as [u Hu].
      exists [VStr u]. exact Hu.
Qed.

(** ** Identity *)

(** The mount effect when a non-empty identifier is stored: nothing is
    generated or written. *)
Lemma bindIdentity_stored w (s : jsstring) :
  localStorage w !! chatUserId = Some s -> s <> [] ->
  exec (bindIdentity uuidAt) w =
    {| ui := {| roomCode := roomCode (ui w); inputCode := inputCode (ui w);
                message := message (ui w); messages := messages (ui w);
                connected := connected (ui w); users := users (ui w);
                userId := s |};
       localStorage := localStorage w;
       emitted := emitted w ++ [mkEmit "set-user-id" [VStr s]];
       alerts := alerts w; uuidCalls := uuidCalls w |}.
Proof.
  unfold chatUserId. intros Hs Hne. apply truthy_true_iff in Hne.
  unfold_handler. rewrite Hs. simpl. rewrite Hne. reflexivity.
Qed.

(** The mount effect when the stored value is falsy, that is [null] or the
    empty string: one UUID is drawn, stored and used. *)
Lemma bindIdentity_generated w :
  truthy_or_null (localStorage w !! chatUserId) = false ->
  exec (bindIdentity uuidAt) w =
    {| ui := {| roomCode := roomCode (ui w); inputCode := inputCode (ui w);
                message := message (ui w); messages := messages (ui w);
                connected := connected (ui w); users := users (ui w);
                userId := uuidAt (uuidCalls w) |};
       localStorage := <[chatUserId := uuidAt (uuidCalls w)]> (localStorage w);
       emitted := emitted w ++
                  [mkEmit "set-user-id" [VStr (uuidAt (uuidCalls w))]];
       alerts := alerts w; uuidCalls := S (uuidCalls w) |}.
Proof.
  unfold chatUserId. intros H. unfold_handler.
  destruct (localStorage w !! js "chatUserId") as [s|]; simpl in *.
  - rewrite H. reflexivity.
  - reflexivity.
Qed.

(** After the mount effect the identifier in use is the stored one, unless
    it is empty. *)
Lemma bindIdentity_persists w :
  userId (ui (exec (bindIdentity uuidAt) w)) <> [] ->
  localStorage (exec (bindIdentity uuidAt) w) !! chatUserId
  = Some (userId (ui (exec (bindIdentity uuidAt) w))).
Proof.
  destruct (localStorage w !! chatUserId) as [s|] eqn:E.
  - destruct (truthy s) eqn:T.
    + apply truthy_true_iff in T.
      rewrite (bindIdentity_stored w s E T). simpl. intros _. exact E.
    + rewrite bindIdentity_generated by (rewrite E; exact T).
      simpl. intros _. apply lookup_insert_eq.
  - rewrite bindIdentity_generated by (rewrite E; reflexivity).
    simpl. intros _. apply lookup_insert_eq.
Qed.

(** C6 (amended). On mount the client reads the value stored under the
    localStorage key ['chatUserId']. If a non-empty one is stored it is
    reused, unchanged, and nothing is generated or written; if none is
    stored, or the stored one is the empty string, a fresh UUID is generated
    and stored under the key. In either case [userId] is set to that value
    and [set-user-id] is emitted with exactly that value; and as long as
    that value is not empty, the next page load over the same localStorage
    emits the very same identifier and leaves the store as it is. *)
Theorem bindIdentity_reuses_or_generates
    w (zero : number) (k : nat) :
  let w' := exec (bindIdentity uuidAt) w in
  let fresh := uuidAt (uuidCalls w) in
  let next := exec (bindIdentity uuidAt) (freshWorld zero (localStorage w') k) in
  (forall s : jsstring,
     localStorage w !! chatUserId = Some s -> s <> [] ->
     localStorage w' = localStorage w
     /\ uuidCalls w' = uuidCalls w
     /\ userId (ui w') = s
     /\ emitted w' = emitted w ++ [mkEmit "set-user-id" [VStr s]])
  /\ (localStorage w !! chatUserId = None
      \/ localStorage w !! chatUserId = Some [] ->
      localStorage w' = <[chatUserId := fresh]> (localStorage w)
      /\ uuidCalls w' = S (uuidCalls w)
      /\ userId (ui w') = fresh
      /\ emitted w' = emitted w ++ [mkEmit "set-user-id" [VStr fresh]])
  /\ (userId (ui w') <> [] ->
      emitted next = [mkEmit "set-user-id" [VStr (userId (ui w'))]]
      /\ userId (ui next) = userId (ui w')
      /\ localStorage next = localStorage w'
      /\ uuidCalls next = k).
Proof.
  cbv zeta. split; [|split].
  - intros s Hs Hne. rewrite (bindIdentity_stored w s Hs Hne). auto.
  - intros H. rewrite bindIdentity_generated; [auto|].
    destruct H as [-> | ->]; reflexivity.
  - intros Hne. pose proof (bindIdentity_persists w Hne) as Hp.
    rewrite (bindIdentity_stored (freshWorld zero _ k) _ Hp Hne). auto.
Qed.

End ClientProperties.

(** * The client on concrete inputs *)

(** Typing ["ab12cd"] and clicking Join sends ["AB12CD"]. *)
Example join_ab12cd :
  emitted (Demo.play [TypeInputCode (js "ab12cd"); ClickJoinRoom] (Demo.fresh ∅))
  = [mkEmit "join-room" [VStr (js "AB12CD")]].
Proof. reflexivity. Qed.

(** Blanks of several kinds around a word are trimmed; a string of blanks
    trims to nothing. *)
Example trim_mixed_blanks :
  trim ([0xFEFF; 0x3000; 0x0009] ++ js "a b" ++ [0x2028; 0x00A0; 0x000A])
  = js "a b"
  /\ trim [0x0020; 0x0009; 0x2003; 0x000D] = [].
Proof. split; reflexivity. Qed.

(** A first page load generates and stores an identifier; the reload sends
    the same one. *)
Example reload_resends_identifier :
  let first := Demo.play [Mount] (Demo.fresh ∅) in
  let second := Demo.play [Mount] (Demo.fresh (localStorage first)) in
  emitted first = [mkEmit "set-user-id" [VStr (Demo.uuidAt 0)]]
  /\ emitted second = emitted first
  /\ uuidCalls second = 0%nat.
Proof. vm_compute. auto. Qed.

(** The contract check tells shapes apart: a bare string is no
    [send-message] payload, a payload is no [create-room], and an unknown
    name is refused. *)
Example wellShaped_rejects :
  wellShaped (mkEmit "send-message" [VStr (js "hi")]) = false
  /\ wellShaped (mkEmit "create-room" [VStr (js "AB12CD")]) = false
  /\ wellShaped (mkEmit "leave-room" []) = false
  /\ wellShaped (mkEmit "send-message"
                   [sendMessagePayload (js "AB12CD") (js "hi") (js "alice")])
     = true.
Proof. repeat split; reflexivity. Qed.

(** Witness of C1: blanks send nothing and change nothing; [" hi "] is
    sent. *)
Lemma sendMessage_emits_iff_nonblank_witness :
  (trim (message (ui Demo.blank)) = []
   /\ emitted (exec sendMessage Demo.blank) = emitted Demo.blank
   /\ message (ui (exec sendMessage Demo.blank)) = message (ui Demo.blank)
   /\ exec sendMessage Demo.blank = Demo.blank)
  /\ (trim (message (ui Demo.chatting)) <> []
      /\ exists args, emitted (exec sendMessage Demo.chatting)
                      = emitted Demo.chatting ++ [mkEmit "send-message" args]).
Proof.
  split.
  - split; [reflexivity|].
    apply (proj2 (sendMessage_emits_iff_nonblank Demo.number Demo.blank)).
    reflexivity.
  - split; [vm_compute; discriminate|].
    apply (proj1 (sendMessage_emits_iff_nonblank Demo.number Demo.chatting)).
    vm_compute; discriminate.
Defined.

(** Witness of C10: the payload holds [" hi "] with its blanks. *)
Lemma sendMessage_sends_untrimmed_and_clears_witness :
  trim (message (ui Demo.chatting)) <> []
  /\ emitted (exec sendMessage Demo.chatting)
     = [mkEmit "send-message"
          [VObj [("roomCode", VStr (js "AB12CD"));
                 ("message", VStr (js " hi "));
                 ("userId", VStr (js "alice"))]]]
  /\ message (ui (exec sendMessage Demo.chatting)) = [].
Proof.
  split; [vm_compute; discriminate|].
  apply (sendMessage_sends_untrimmed_and_clears Demo.number Demo.chatting).
  vm_compute; discriminate.
Defined.

(** Witness of C9: the second participant leaves. *)
Lemma presence_sets_users_only_witness :
  let w' := Demo.act (Receive (user_left 1%Z)) Demo.chatting in
  users (ui w') = 1%Z
  /\ messages (ui w') = [Demo.hi]
  /\ roomCode (ui w') = js "AB12CD"
  /\ connected (ui w') = true
  /\ userId (ui w') = js "alice"
  /\ inputCode (ui w') = js "ab12cd"
  /\ message (ui w') = js " hi "
  /\ emitted w' = []
  /\ alerts w' = [].
Proof.
  apply (presence_sets_users_only Demo.number upper_ascii Demo.uuidAt
           1%Z (user_left 1%Z) Demo.chatting).
  right; reflexivity.
Defined.

(** Counterexample to C2 as stated: a [joined-room] snapshot makes the
    message list grow, from none to two, and it is not a [new-message]. *)
Lemma joined_room_grows_messages :
  let a := Receive (joined_room (js "AB12CD") [Demo.hi; Demo.yo]) in
  let w := Demo.fresh ∅ in
  ~ ((length (messages (ui w)) < length (messages (ui (Demo.act a w))))%nat ->
     exists m, a = Receive (new_message m)).
Proof.
  cbv zeta. intros H. destruct H as [m Hm].
  - simpl. lia.
  - discriminate Hm.
Qed.

(** Counterexample to C6 as stated: an identifier is stored, the empty
    string, and the client does not reuse it but generates another and
    overwrites it. *)
Lemma empty_stored_identifier_is_replaced :
  let w := Demo.fresh {[ chatUserId := [] ]} in
  let w' := exec (bindIdentity Demo.uuidAt) w in
  ~ (forall s : jsstring,
       localStorage w !! chatUserId = Some s ->
       userId (ui w') = s
       /\ localStorage w' !! chatUserId = Some s
       /\ emitted w' = [mkEmit "set-user-id" [VStr s]]).
Proof.
  cbv zeta. intros H. destruct (H [] eq_refl) as (Hu & _).
  vm_compute in Hu. discriminate Hu.
Qed.

(** Witness of C6: a stored ["alice"] is reused; an empty store, and a store
    holding the empty string, get the generated identifier; the next load
    sends the same. *)
Lemma bindIdentity_reuses_or_generates_witness :
  (let w := Demo.chatting in
   let w' := exec (bindIdentity Demo.uuidAt) w in
   localStorage w' = localStorage w
   /\ uuidCalls w' = uuidCalls w
   /\ userId (ui w') = js "alice"
   /\ emitted w' = emitted w ++ [mkEmit "set-user-id" [VStr (js "alice")]])
  /\ (let w := Demo.fresh {[ chatUserId := [] ]} in
      let w' := exec (bindIdentity Demo.uuidAt) w in
      localStorage w' = <[chatUserId := Demo.uuidAt 0]> (localStorage w)
      /\ uuidCalls w' = 1%nat
      /\ userId (ui w') = Demo.uuidAt 0
      /\ emitted w' = emitted w ++ [mkEmit "set-user-id" [VStr (Demo.uuidAt 0)]])
  /\ (let w' := exec (bindIdentity Demo.uuidAt) (Demo.fresh ∅) in
      let next := exec (bindIdentity Demo.uuidAt)
                       (freshWorld 0%Z (localStorage w') 7) in
      emitted next = [mkEmit "set-user-id" [VStr (userId (ui w'))]]
      /\ userId (ui next) = userId (ui w')
      /\ localStorage next = localStorage w'
      /\ uuidCalls next = 7%nat).
Proof.
  split; [|split].
  - apply (proj1 (bindIdentity_reuses_or_generates Demo.number Demo.uuidAt
                    Demo.chatting 0%Z 0) (js "alice")).
    + reflexivity.
    + discriminate.
  - apply (proj1 (proj2 (bindIdentity_reuses_or_generates Demo.number
                           Demo.uuidAt (Demo.fresh {[ chatUserId := [] ]})
                           0%Z 0))).
    right; reflexivity.
  - apply (proj2 (proj2 (bindIdentity_reuses_or_generates Demo.number
                           Demo.uuidAt (Demo.fresh ∅) 0%Z 7))).
    vm_compute; discriminate.
Defined.

(** * Further properties: the view, and runs of the component *)

Section ViewProperties.

Variable number : Type.
Variable toUpperCase : jsstring -> jsstring.
Variable uuidAt : nat -> jsstring.

Implicit Types (w : World number) (a : Action number) (s : State number)
  (m : Message) (acts : list (Action number)).

(** ** What is on screen *)

Lemma bubbles_have_no_handlers (uid : jsstring) (ms : list Message) :
  flat_map (@handlersOf number) (map (bubble uid) ms) = [].
Proof. induction ms as [|m ms IH]; [reflexivity|]. simpl. exact IH. Qed.

Lemma bubbles_strings (uid : jsstring) (ms : list Message) :
  flat_map (@stringsOf number) (map (bubble uid) ms) = map content ms.
Proof. induction ms as [|m ms IH]; [reflexivity|]. simpl. by rewrite IH. Qed.

Lemma bubbles_numbers (uid : jsstring) (ms : list Message) :
  flat_map (@numbersOf number) (map (bubble uid) ms) = [].
Proof. induction ms as [|m ms IH]; [reflexivity|]. simpl. exact IH. Qed.

Lemma bubbles_keyed (uid : jsstring) (ms : list Message) :
  flat_map (@keyedOf number) (map (bubble uid) ms)
  = map (fun m => (id m,
                   [if bool_decide (senderId m = uid)
                    then "flex justify-end" else "flex justify-start"],
                   [content m])) ms.
Proof.
  induction ms as [|m ms IH]; [reflexivity|]. simpl. rewrite IH.
  destruct (bool_decide (senderId m = uid)); reflexivity.
Qed.

Lemma handlersOf_render s :
  handlersOf (render s)
  = if connected s
    then [OnSubmit cb_sendMessage; OnChange cb_handleMessageChange]
    else [OnClick cb_createRoom; OnChange cb_handleInputChange;
          OnClick cb_joinRoom].
Proof.
  unfold render. destruct (connected s); simpl.
  - rewrite flat_map_app, bubbles_have_no_handlers. reflexivity.
  - destruct (truthy (roomCode s)); reflexivity.
Qed.

(** Which actions the view allows, as a function of [connected]. *)
Lemma enabled_spec s a :
  enabled s a
  = match a with
    | Mount | Receive _ => true
    | ClickCreateRoom | ClickJoinRoom | TypeInputCode _ => negb (connected s)
    | TypeMessage _ | SubmitMessage => connected s
    end.
Proof.
  unfold enabled. destruct a; cbn [triggerOf]; try reflexivity;
    rewrite handlersOf_render; destruct (connected s); reflexivity.
Qed.

(** X1. The lobby and the chat controls exclude each other: while not
    connected the view binds exactly Create, the room-code input and Join,
    so a message cannot be typed or submitted; once connected it binds
    exactly the message form and the message input, however many messages
    are shown, so no room can be created or joined. *)
Theorem view_controls_by_connection s :
  handlersOf (render s)
  = (if connected s
     then [OnSubmit cb_sendMessage; OnChange cb_handleMessageChange]
     else [OnClick cb_createRoom; OnChange cb_handleInputChange;
           OnClick cb_joinRoom])
  /\ (forall v, enabled s SubmitMessage = connected s
               /\ enabled s (TypeMessage v) = connected s
               /\ enabled s (TypeInputCode v) = negb (connected s))
  /\ enabled s ClickCreateRoom = negb (connected s)
  /\ enabled s ClickJoinRoom = negb (connected s).
Proof.
  split; [apply handlersOf_render|].
  repeat split; apply enabled_spec.
Qed.

(** X2. Once connected, the view shows the room code, then the content of
    every held message, one bubble per message in list order, keyed by the
    message id; a bubble is on the right exactly when the message's sender
    is the client's own [userId]. The user count is shown as received. *)
Theorem chat_view_shows_messages_in_order s :
  connected s = true ->
  stringsOf (render s) = roomCode s :: map content (messages s)
  /\ keyedOf (render s)
     = map (fun m => (id m,
                      [if bool_decide (senderId m = userId s)
                       then "flex justify-end" else "flex justify-start"],
                      [content m])) (messages s)
  /\ numbersOf (render s) = [users s].
Proof.
  intros Hc. unfold render. rewrite Hc. simpl.
  rewrite !flat_map_app, bubbles_strings, bubbles_keyed, bubbles_numbers.
  simpl. rewrite !app_nil_r. auto.
Qed.


(** ** One step *)

(** Splits a step by action, server event and the branches taken. *)
Ltac step_cases a :=
  destruct a as [|[]| | | | |]; unfold_handler;
  repeat match goal with
         | |- context [localStorage ?w !! ?k] =>
             destruct (localStorage w !! k) eqn:?; simpl
         | |- context [truthy ?x] => destruct (truthy x) eqn:?; simpl
         end.

Lemma step_connected a w :
  connected (ui (step toUpperCase uuidAt a w))
  = connected (ui w) || isJoinedRoom a.
Proof.
  step_cases a; rewrite ?orb_false_r, ?orb_true_r; reflexivity.
Qed.

Lemma step_userId a w :
  isMount a = false ->
  userId (ui (step toUpperCase uuidAt a w)) = userId (ui w).
Proof. intros H. step_cases a; (discriminate H || reflexivity). Qed.

Lemma step_roomCode a w :
  isRoomEvent a = false ->
  roomCode (ui (step toUpperCase uuidAt a w)) = roomCode (ui w).
Proof. intros H. step_cases a; (discriminate H || reflexivity). Qed.

Lemma step_messages_other a w :
  isMessagePush a = false ->
  messages (ui (step toUpperCase uuidAt a w)) = messages (ui w).
Proof. intros H. step_cases a; (discriminate H || reflexivity). Qed.

Lemma step_messages_push a w1 w2 :
  messages (ui w1) = messages (ui w2) ->
  messages (ui (step toUpperCase uuidAt a w1))
  = messages (ui (step toUpperCase uuidAt a w2)).
Proof.
  intros H. destruct (isMessagePush a) eqn:E.
  - destruct a as [|[]| | | | |]; try discriminate E; simpl.
    + reflexivity.
    + unfold_handler. by rewrite H.
  - by rewrite !step_messages_other.
Qed.

Lemma step_alerts a w :
  alerts (step toUpperCase uuidAt a w) = alerts w ++ errorsOf [a].
Proof. step_cases a; rewrite ?app_nil_r; reflexivity. Qed.

Lemma guarded_cases a w :
  guarded toUpperCase uuidAt a w = step toUpperCase uuidAt a w
  \/ (guarded toUpperCase uuidAt a w = w /\ enabled (ui w) a = false).
Proof. unfold guarded. destruct (enabled (ui w) a); auto. Qed.

Lemma guarded_receive (e : ServerEvent number) w :
  guarded toUpperCase uuidAt (Receive e) w
  = step toUpperCase uuidAt (Receive e) w.
Proof. unfold guarded. rewrite enabled_spec. reflexivity. Qed.

Lemma run_cons a acts w :
  run toUpperCase uuidAt (a :: acts) w
  = run toUpperCase uuidAt acts (step toUpperCase uuidAt a w).
Proof. reflexivity. Qed.

Lemma drive_cons a acts w :
  drive toUpperCase uuidAt (a :: acts) w
  = drive toUpperCase uuidAt acts (guarded toUpperCase uuidAt a w).
Proof. reflexivity. Qed.

Lemma run_app acts1 acts2 w :
  run toUpperCase uuidAt (acts1 ++ acts2) w
  = run toUpperCase uuidAt acts2 (run toUpperCase uuidAt acts1 w).
Proof. unfold run. apply fold_left_app. Qed.

(** ** Runs: the connection flag *)

Lemma run_connected acts w :
  connected (ui (run toUpperCase uuidAt acts w))
  = connected (ui w) || existsb isJoinedRoom acts.
Proof.
  revert w. induction acts as [|a acts IH]; intros w; simpl.
  - by rewrite orb_false_r.
  - rewrite IH, step_connected. by rewrite orb_assoc.
Qed.

Lemma drive_connected acts w :
  connected (ui (drive toUpperCase uuidAt acts w))
  = connected (ui w) || existsb isJoinedRoom acts.
Proof.
  revert w. induction acts as [|a acts IH]; intros w; simpl.
  - by rewrite orb_false_r.
  - rewrite IH. destruct (guarded_cases a w) as [-> | [-> Hoff]].
    + rewrite step_connected. by rewrite orb_assoc.
    + destruct a as [|e| | | | |]; simpl; try reflexivity.
      rewrite enabled_spec in Hoff. discriminate Hoff.
Qed.

(** X4. [connected] is raised by a [joined-room] event and by nothing else,
    and nothing ever lowers it: after any sequence of actions the client is
    connected exactly if it was before or a [joined-room] event was among
    them. In particular creating a room, and the [room-created] reply, do
    not connect the client. *)
Theorem connected_iff_joined_room acts w :
  connected (ui (run toUpperCase uuidAt acts w))
  = connected (ui w) || existsb isJoinedRoom acts
  /\ connected (ui (drive toUpperCase uuidAt acts w))
     = connected (ui w) || existsb isJoinedRoom acts.
Proof. split; [apply run_connected | apply drive_connected]. Qed.

(** ** Runs: alerts *)

Lemma errorsOf_cons a acts : errorsOf (a :: acts) = errorsOf [a] ++ errorsOf acts.
Proof. unfold errorsOf. simpl. by destruct a as [|[]| | | | |]. Qed.

(** X5. The alerts shown are exactly the strings of the [error] events
    received, one alert per event, in the order of arrival: nothing else
    ever raises an alert, and no error is dropped. *)
Theorem alerts_are_the_errors_received acts w :
  alerts (run toUpperCase uuidAt acts w) = alerts w ++ errorsOf acts
  /\ alerts (drive toUpperCase uuidAt acts w) = alerts w ++ errorsOf acts.
Proof.
  split; revert w; induction acts as [|a acts IH]; intros w;
    try (simpl; by rewrite app_nil_r).
  - rewrite run_cons, IH, step_alerts, (errorsOf_cons a acts).
    by rewrite app_assoc.
  - rewrite drive_cons, IH, (errorsOf_cons a acts).
    destruct (guarded_cases a w) as [-> | [-> Hoff]].
    + rewrite step_alerts. by rewrite app_assoc.
    + destruct a as [|e| | | | |]; try reflexivity;
        rewrite enabled_spec in Hoff; discriminate Hoff.
Qed.

(** ** Runs: the message list *)

Lemma newMessagesOf_cons a acts :
  newMessagesOf (a :: acts) = newMessagesOf [a] ++ newMessagesOf acts.
Proof. unfold newMessagesOf. simpl. by destruct a as [|[]| | | | |]. Qed.

Lemma run_messages_news acts w :
  existsb isJoinedRoom acts = false ->
  messages (ui (run toUpperCase uuidAt acts w))
  = messages (ui w) ++ newMessagesOf acts.
Proof.
  revert w. induction acts as [|a acts IH]; intros w H.
  - simpl. by rewrite app_nil_r.
  - cbn [existsb] in H. apply orb_false_iff in H as [Ha Hacts].
    rewrite run_cons, (IH _ Hacts), (newMessagesOf_cons a acts), app_assoc.
    f_equal.
    destruct a as [|[]| | | | |]; try discriminate Ha;
      try (rewrite step_messages_other by reflexivity; by rewrite app_nil_r).
    reflexivity.
Qed.

(** X6. The message list mirrors the server: after a [joined-room] snapshot
    it is the snapshot followed by every message pushed since, in arrival
    order, whatever the user did and whatever other events came in between
    or before. *)
Theorem messages_are_snapshot_then_news
    acts1 (rc : jsstring) (ms : list Message) acts2 w :
  existsb isJoinedRoom acts2 = false ->
  messages (ui (run toUpperCase uuidAt
                  (acts1 ++ Receive (joined_room rc ms) :: acts2) w))
  = ms ++ newMessagesOf acts2.
Proof.
  intros H. rewrite run_app. simpl. by rewrite (run_messages_news _ _ H).
Qed.

(** X7. Only pushes count: dropping from a sequence of actions everything
    but the [joined-room] and [new-message] events leaves the resulting
    message list the same. *)
Theorem messages_ignore_all_but_pushes acts w1 w2 :
  messages (ui w1) = messages (ui w2) ->
  messages (ui (run toUpperCase uuidAt acts w1))
  = messages (ui (run toUpperCase uuidAt
                    (filter (fun a => isMessagePush a = true) acts) w2)).
Proof.
  revert w1 w2. induction acts as [|a acts IH]; intros w1 w2 H; simpl.
  - exact H.
  - destruct (isMessagePush a) eqn:E.
    + rewrite filter_cons_True by exact E. simpl.
      apply IH. by apply step_messages_push.
    + rewrite filter_cons_False by (rewrite E; discriminate).
      apply IH. by rewrite step_messages_other.
Qed.

(** ** Runs: what is emitted *)

(** What one step adds to the log of outgoing events. *)
Lemma step_emitted a w :
  exists new,
    emitted (step toUpperCase uuidAt a w) = emitted w ++ new
    /\ (new = []
        \/ (a = Mount
            /\ new = [mkEmit "set-user-id"
                        [VStr (userId (ui (step toUpperCase uuidAt a w)))]])
        \/ (a = ClickCreateRoom /\ new = [mkEmit "create-room" []])
        \/ (a = ClickJoinRoom
            /\ new = [mkEmit "join-room"
                        [VStr (toUpperCase (inputCode (ui w)))]])
        \/ (a = SubmitMessage
            /\ new = [mkEmit "send-message"
                        [sendMessagePayload (roomCode (ui w)) (message (ui w))
                                            (userId (ui w))]])).
Proof.
  step_cases a;
    first [ exists []; split; [by rewrite app_nil_r | by left]
          | eexists [_]; split; [reflexivity|];
            right;
            first [ left; split; reflexivity
                  | right; left; split; reflexivity
                  | right; right; left; split; reflexivity
                  | right; right; right; split; reflexivity ] ].
Qed.

Lemma emittedSince_app w w' (new : list Emit) :
  emitted w' = emitted w ++ new -> emittedSince w w' = new.
Proof. intros H. unfold emittedSince. rewrite H. apply drop_app_length. Qed.

(** An invariant [I] kept by the allowed steps, each of which emits only
    events in [P], gives a run that emits only events in [P]. *)
Lemma fold_emitted_invariant
    (f : Action number -> World number -> World number)
    (ok : Action number -> Prop) (I : World number -> Prop)
    (P : Emit -> Prop) :
  (forall a w, ok a -> I w ->
     I (f a w)
     /\ exists new, emitted (f a w) = emitted w ++ new /\ Forall P new) ->
  forall acts w, Forall ok acts -> I w ->
    I (fold_left (fun w a => f a w) acts w)
    /\ Forall P (emittedSince w (fold_left (fun w a => f a w) acts w)).
Proof.
  intros Hstep acts w Hok HI.
  cut (I (fold_left (fun w a => f a w) acts w)
       /\ exists new,
            emitted (fold_left (fun w a => f a w) acts w) = emitted w ++ new
            /\ Forall P new).
  { intros (HI' & new & Hnew & Pnew). split; [exact HI'|].
    by rewrite (emittedSince_app _ _ _ Hnew). }
  revert w Hok HI. induction acts as [|a acts IH]; intros w Hok HI; simpl.
  - split; [exact HI|]. exists []. split; [by rewrite app_nil_r|constructor].
  - apply Forall_cons in Hok as [Ha Hacts].
    destruct (Hstep a w Ha HI) as (HI' & new & Hnew & Pnew).
    destruct (IH (f a w) Hacts HI') as (HI'' & rest & Hrest & Prest).
    split; [exact HI''|]. exists (new ++ rest). split.
    + by rewrite Hrest, Hnew, app_assoc.
    + by apply Forall_app.
Qed.

Lemma existsb_false_Forall (p : Action number -> bool) acts :
  existsb p acts = false -> Forall (fun a => p a = false) acts.
Proof.
  induction acts as [|a acts IH]; simpl; intros H; [constructor|].
  apply orb_false_iff in H as [Ha Hacts]. constructor; auto.
Qed.

(** What one action on the rendered component adds to the log. *)
Lemma guarded_emitted a w :
  exists new,
    emitted (guarded toUpperCase uuidAt a w) = emitted w ++ new
    /\ (new = []
        \/ (a = Mount /\ exists u, new = [mkEmit "set-user-id" [VStr u]])
        \/ (a = ClickCreateRoom /\ connected (ui w) = false
            /\ new = [mkEmit "create-room" []])
        \/ (a = ClickJoinRoom /\ connected (ui w) = false
            /\ exists c, new = [mkEmit "join-room" [VStr c]])
        \/ (a = SubmitMessage /\ connected (ui w) = true
            /\ new = [mkEmit "send-message"
                        [sendMessagePayload (roomCode (ui w)) (message (ui w))
                                            (userId (ui w))]])).
Proof.
  unfold guarded. destruct (enabled (ui w) a) eqn:En.
  - rewrite enabled_spec in En.
    destruct (step_emitted a w)
      as (new & Hnew & [H | [[-> H] | [[-> H] | [[-> H] | [-> H]]]]]);
      exists new; (split; [exact Hnew|]).
    + by left.
    + right; left. eauto.
    + right; right; left. apply negb_true_iff in En. auto.
    + right; right; right; left. apply negb_true_iff in En. eauto.
    + right; right; right; right. auto.
  - exists []. split; [by rewrite app_nil_r | by left].
Qed.

(** X8. A client that drives the component through what is on screen
    cannot send a message before it has joined: from a world that is not
    connected, as long as no [joined-room] event arrives, no [send-message]
    is emitted, whatever is typed, clicked or received. *)
Theorem no_send_before_joined_room acts w :
  connected (ui w) = false ->
  existsb isJoinedRoom acts = false ->
  Forall (fun e => ev_name e <> "send-message")
         (emittedSince w (drive toUpperCase uuidAt acts w)).
Proof.
  intros Hc Hacts. apply existsb_false_Forall in Hacts.
  apply (fold_emitted_invariant (guarded toUpperCase uuidAt)
           (fun a => isJoinedRoom a = false)
           (fun w => connected (ui w) = false)
           (fun e => ev_name e <> "send-message")); [|exact Hacts|exact Hc].
  clear. intros a w Ha Hc. split.
  - destruct (guarded_cases a w) as [-> | [-> _]]; [|exact Hc].
    by rewrite step_connected, Hc, Ha.
  - destruct (guarded_emitted a w) as (new & Hnew & Hcases).
    exists new. split; [exact Hnew|].
    destruct Hcases
      as [-> | [(_ & u & ->) | [(_ & _ & ->) | [(_ & _ & c & ->)
                                              | (_ & Hon & _)]]]];
      [constructor | repeat constructor; discriminate ..
       | congruence].
Qed.

(** X9. Once connected, a client driven through what is on screen emits no
    [create-room] and no [join-room] any more, whatever happens: the lobby
    is gone for good. *)
Theorem no_lobby_events_once_connected acts w :
  connected (ui w) = true ->
  Forall (fun e => ev_name e <> "create-room" /\ ev_name e <> "join-room")
         (emittedSince w (drive toUpperCase uuidAt acts w)).
Proof.
  intros Hc.
  apply (fold_emitted_invariant (guarded toUpperCase uuidAt)
           (fun _ => True)
           (fun w => connected (ui w) = true)
           (fun e => ev_name e <> "create-room" /\ ev_name e <> "join-room"));
    [|by apply Forall_true|exact Hc].
  clear. intros a w _ Hc. split.
  - destruct (guarded_cases a w) as [-> | [-> _]]; [|exact Hc].
    by rewrite step_connected, Hc.
  - destruct (guarded_emitted a w) as (new & Hnew & Hcases).
    exists new. split; [exact Hnew|].
    destruct Hcases
      as [-> | [(_ & u & ->) | [(_ & Hoff & _) | [(_ & Hoff & _)
                                                 | (_ & _ & ->)]]]];
      [constructor | repeat constructor; discriminate
       | congruence | congruence | repeat constructor; discriminate].
Qed.

Lemma mount_emitted w :
  emitted (step toUpperCase uuidAt Mount w)
  = emitted w ++
    [mkEmit "set-user-id"
       [VStr (userId (ui (step toUpperCase uuidAt Mount w)))]].
Proof.
  unfold_handler.
  destruct (localStorage w !! js "chatUserId") as [u|]; simpl;
    [destruct (truthy u)|]; reflexivity.
Qed.

Lemma run_sends_keep_userId acts w :
  existsb isMount acts = false ->
  Forall (fun e => ev_name e = "send-message" ->
                   exists rc msg,
                     ev_args e = [sendMessagePayload rc msg (userId (ui w))])
         (emittedSince w (run toUpperCase uuidAt acts w)).
Proof.
  intros Hacts. apply existsb_false_Forall in Hacts.
  apply (fold_emitted_invariant (step toUpperCase uuidAt)
           (fun a => isMount a = false)
           (fun w' => userId (ui w') = userId (ui w))
           (fun e => ev_name e = "send-message" ->
                     exists rc msg,
                       ev_args e = [sendMessagePayload rc msg (userId (ui w))]));
    [|exact Hacts|reflexivity].
  intros a w' Ha Hu. split.
  - by rewrite step_userId.
  - destruct (step_emitted a w') as (new & Hnew & Hcases).
    exists new. split; [exact Hnew|].
    destruct Hcases
      as [-> | [(_ & ->) | [(_ & ->) | [(_ & ->) | (_ & ->)]]]];
      [constructor | repeat constructor; discriminate ..|].
    repeat constructor. intros _. rewrite Hu. simpl. eauto.
Qed.

(** X10. Every message is signed with the identity announced at mount: the
    mount effect emits [set-user-id] with the [userId] it sets, and every
    [send-message] emitted afterwards, whatever the user does and the server
    sends, carries that same [userId]. *)
Theorem sends_carry_the_bound_identity acts w0 :
  let w := step toUpperCase uuidAt Mount w0 in
  existsb isMount acts = false ->
  emittedSince w0 w = [mkEmit "set-user-id" [VStr (userId (ui w))]]
  /\ Forall (fun e => ev_name e = "send-message" ->
                      exists rc msg,
                        ev_args e = [sendMessagePayload rc msg (userId (ui w))])
            (emittedSince w (run toUpperCase uuidAt acts w)).
Proof.
  cbv zeta. intros Hacts. split.
  - apply emittedSince_app, mount_emitted.
  - by apply run_sends_keep_userId.
Qed.


(** ** Submitting *)


(** X13. A submit does nothing at all exactly when the input holds nothing
    but white space (the empty input included): no event, and the blanks
    stay in the input. *)
Theorem submit_is_noop_iff_only_blanks w :
  exec sendMessage w = w <-> forallb isWhiteSpace (message (ui w)) = true.
Proof.
  rewrite <- trim_nil_iff. split.
  - intros H. destruct (trim (message (ui w))) as [|c r] eqn:E; [reflexivity|].
    assert (Hne : trim (message (ui w)) <> []) by (rewrite E; discriminate).
    rewrite (sendMessage_nonblank number w Hne) in H.
    apply (f_equal emitted) in H. simpl in H.
    exfalso. exact (app_one_neq _ _ H).
  - apply sendMessage_blank.
Qed.

(** ** Who owns which state *)

(** X14. What the user does never touches the state the server owns: no
    click, keystroke or submit changes [roomCode], [messages], [connected],
    [users] or [userId], raises an alert, writes to localStorage or draws a
    UUID. *)
Theorem user_actions_keep_server_state a w :
  triggerOf a <> None ->
  let w' := step toUpperCase uuidAt a w in
  roomCode (ui w') = roomCode (ui w)
  /\ messages (ui w') = messages (ui w)
  /\ connected (ui w') = connected (ui w)
  /\ users (ui w') = users (ui w)
  /\ userId (ui w') = userId (ui w)
  /\ alerts w' = alerts w
  /\ localStorage w' = localStorage w
  /\ uuidCalls w' = uuidCalls w.
Proof.
  intros H. cbv zeta.
  destruct a as [|e| | | | |]; try (by destruct H); unfold_handler;
    try destruct (truthy (trim (message (ui w)))); repeat split.
Qed.

(** X15. The [room-created] reply leaves the creator in the lobby: the
    client stays not connected, keeps the lobby's controls, emits nothing,
    and the only thing the view now shows is the received code (nothing, if
    the code is empty). *)
Theorem room_created_keeps_lobby (code : jsstring) w :
  connected (ui w) = false ->
  let w' := step toUpperCase uuidAt (Receive (room_created code)) w in
  connected (ui w') = false
  /\ stringsOf (render (ui w')) = (if truthy code then [code] else [])
  /\ handlersOf (render (ui w'))
     = [OnClick cb_createRoom; OnChange cb_handleInputChange;
        OnClick cb_joinRoom]
  /\ emitted w' = emitted w.
Proof.
  intros Hc. cbv zeta. unfold_handler. unfold render. simpl. rewrite Hc.
  simpl. destruct (truthy code); auto.
Qed.

(** ** The stored identifier *)

Lemma step_storage_nonmount a w :
  isMount a = false ->
  localStorage (step toUpperCase uuidAt a w) = localStorage w
  /\ uuidCalls (step toUpperCase uuidAt a w) = uuidCalls w.
Proof. intros H. step_cases a; (discriminate H || (split; reflexivity)). Qed.

Lemma step_mount_is_bindIdentity w :
  step toUpperCase uuidAt Mount w = exec (bindIdentity uuidAt) w.
Proof. reflexivity. Qed.

(** X16. The component writes to localStorage under the key ['chatUserId']
    and nowhere else: every other key reads the same after any sequence of
    actions. *)
Theorem only_chatUserId_is_written acts w (key : jsstring) :
  key <> chatUserId ->
  localStorage (run toUpperCase uuidAt acts w) !! key = localStorage w !! key.
Proof.
  intros Hkey. revert w. induction acts as [|a acts IH]; intros w;
    [reflexivity|].
  rewrite run_cons, IH. destruct (isMount a) eqn:E.
  - destruct a; try discriminate E. rewrite step_mount_is_bindIdentity.
    destruct (truthy_or_null (localStorage w !! chatUserId)) eqn:T.
    + destruct (localStorage w !! chatUserId) as [u|] eqn:Hu;
        [|discriminate T].
      simpl in T. apply truthy_true_iff in T.
      by rewrite (bindIdentity_stored number uuidAt w u Hu T).
    + rewrite (bindIdentity_generated number uuidAt w T). simpl.
      by rewrite lookup_insert_ne.
  - by rewrite (proj1 (step_storage_nonmount a w E)).
Qed.

(** X17. A non-empty stored identifier is never replaced: after any
    sequence of actions, remounts included, localStorage is as it was, no
    UUID has been generated, and every [set-user-id] emitted carries the
    stored identifier. *)
Theorem stored_identifier_is_stable acts w (u : jsstring) :
  localStorage w !! chatUserId = Some u -> u <> [] ->
  localStorage (run toUpperCase uuidAt acts w) = localStorage w
  /\ uuidCalls (run toUpperCase uuidAt acts w) = uuidCalls w
  /\ Forall (fun e => ev_name e = "set-user-id" -> ev_args e = [VStr u])
            (emittedSince w (run toUpperCase uuidAt acts w)).
Proof.
  intros Hu Hne.
  destruct (fold_emitted_invariant (step toUpperCase uuidAt)
              (fun _ => True)
              (fun w' => localStorage w' = localStorage w
                         /\ uuidCalls w' = uuidCalls w)
              (fun e => ev_name e = "set-user-id" -> ev_args e = [VStr u]))
    with (acts := acts) (w := w) as ((H1 & H2) & H3);
    [|by apply Forall_true|by split|by repeat split].
  intros a w' _ [Hs Hk]. destruct (isMount a) eqn:E.
  - destruct a; try discriminate E. rewrite step_mount_is_bindIdentity.
    assert (Hu' : localStorage w' !! chatUserId = Some u) by by rewrite Hs.
    rewrite (bindIdentity_stored number uuidAt w' u Hu' Hne). simpl.
    split; [by split|]. eexists. split; [reflexivity|].
    repeat constructor.
  - destruct (step_storage_nonmount a w' E) as [-> ->]. split; [by split|].
    destruct (step_emitted a w') as (new & Hnew & Hcases).
    exists new. split; [exact Hnew|].
    destruct Hcases
      as [-> | [(-> & _) | [(_ & ->) | [(_ & ->) | (_ & ->)]]]];
      [constructor | discriminate E | repeat constructor; discriminate ..].
Qed.

(** ** Controlled inputs *)

Lemma bubbles_values (uid : jsstring) (ms : list Message) :
  flat_map (@valuesOf number) (map (bubble uid) ms) = [].
Proof. induction ms as [|m ms IH]; [reflexivity|]. simpl. exact IH. Qed.

Lemma valuesOf_render s :
  valuesOf (render s) = [if connected s then message s else inputCode s].
Proof.
  unfold render. destruct (connected s); simpl.
  - rewrite flat_map_app, bubbles_values. reflexivity.
  - destruct (truthy (roomCode s)); reflexivity.
Qed.

(** X18. The inputs are controlled by the state. The view has exactly one
    input: the room-code field while not connected, the message field once
    connected. What is typed is what the field then shows; Join sends the
    upper case of what its field shows; and after a submit that sent, the
    message field shows the empty string. *)
Theorem inputs_show_what_will_be_sent (v : jsstring) w :
  (connected (ui w) = false ->
   valuesOf (render (ui (step toUpperCase uuidAt (TypeInputCode v) w))) = [v]
   /\ exists shown,
        valuesOf (render (ui w)) = [shown]
        /\ emittedSince w (step toUpperCase uuidAt ClickJoinRoom w)
           = [mkEmit "join-room" [VStr (toUpperCase shown)]])
  /\ (connected (ui w) = true ->
      valuesOf (render (ui (step toUpperCase uuidAt (TypeMessage v) w))) = [v]
      /\ (trim (message (ui w)) <> [] ->
          valuesOf (render (ui (step toUpperCase uuidAt SubmitMessage w)))
          = [[]])).
Proof.
  split; intros Hc.
  - split.
    + rewrite valuesOf_render. unfold_handler. by rewrite Hc.
    + exists (inputCode (ui w)). split.
      * rewrite valuesOf_render. by rewrite Hc.
      * by apply emittedSince_app.
  - split.
    + rewrite valuesOf_render. unfold_handler. by rewrite Hc.
    + intros Hne. rewrite valuesOf_render.
      unfold step, handler. rewrite (sendMessage_nonblank number w Hne).
      simpl. by rewrite Hc.
Qed.

End ViewProperties.

(** * The further properties on concrete inputs *)

(** Witness of X2: two bubbles, the own one on the right. *)
Lemma chat_view_shows_messages_in_order_witness :
  let s := ui (Demo.act (Receive (new_message Demo.yo)) Demo.chatting) in
  connected s = true
  /\ stringsOf (render s) = [js "AB12CD"; js "hi"; js "yo"]
  /\ keyedOf (render s)
     = [(js "m1", ["flex justify-end"], [js "hi"]);
        (js "m2", ["flex justify-start"], [js "yo"])]
  /\ numbersOf (render s) = [2%Z].
Proof.
  split; [reflexivity|].
  exact (chat_view_shows_messages_in_order Demo.number
           (ui (Demo.act (Receive (new_message Demo.yo)) Demo.chatting))
           eq_refl).
Defined.


(** Witness of X6: a snapshot of one message, then one more pushed. *)
Lemma messages_are_snapshot_then_news_witness :
  let before := [TypeMessage (js "x"); Receive (new_message Demo.yo)] in
  let after := [Receive (user_joined 2%Z); Receive (new_message Demo.yo);
                SubmitMessage] in
  existsb isJoinedRoom after = false
  /\ messages (ui (Demo.play
                     (before ++ Receive (joined_room (js "AB12CD") [Demo.hi])
                             :: after)
                     (Demo.fresh ∅)))
     = [Demo.hi; Demo.yo].
Proof.
  split; [reflexivity|].
  exact (messages_are_snapshot_then_news Demo.number upper_ascii Demo.uuidAt
           [TypeMessage (js "x"); Receive (new_message Demo.yo)]
           (js "AB12CD") [Demo.hi]
           [Receive (user_joined 2%Z); Receive (new_message Demo.yo);
            SubmitMessage]
           (Demo.fresh ∅) eq_refl).
Defined.

(** Witness of X7: typing, sending and presence news dropped from a run. *)
Lemma messages_ignore_all_but_pushes_witness :
  let acts := [TypeMessage (js "x"); SubmitMessage;
               Receive (new_message Demo.yo); Receive (user_left 1%Z)] in
  messages (ui Demo.chatting) = messages (ui Demo.blank)
  /\ messages (ui (Demo.play acts Demo.chatting))
     = messages (ui (Demo.play [Receive (new_message Demo.yo)] Demo.blank)).
Proof.
  split; [reflexivity|].
  exact (messages_ignore_all_but_pushes Demo.number upper_ascii Demo.uuidAt
           [TypeMessage (js "x"); SubmitMessage;
            Receive (new_message Demo.yo); Receive (user_left 1%Z)]
           Demo.chatting Demo.blank eq_refl).
Defined.

(** Witness of X8: typing and submitting in the lobby sends nothing. *)
Lemma no_send_before_joined_room_witness :
  let acts := [Mount; TypeMessage (js "x"); SubmitMessage; ClickCreateRoom;
               Receive (room_created (js "AB12CD")); SubmitMessage] in
  connected (ui (Demo.fresh ∅)) = false
  /\ existsb isJoinedRoom acts = false
  /\ Forall (fun e => ev_name e <> "send-message")
            (emittedSince (Demo.fresh ∅)
               (drive upper_ascii Demo.uuidAt acts (Demo.fresh ∅))).
Proof.
  split; [reflexivity|]. split; [reflexivity|].
  exact (no_send_before_joined_room Demo.number upper_ascii Demo.uuidAt
           [Mount; TypeMessage (js "x"); SubmitMessage; ClickCreateRoom;
            Receive (room_created (js "AB12CD")); SubmitMessage]
           (Demo.fresh ∅) eq_refl eq_refl).
Defined.

(** Witness of X9: clicks on the lobby's buttons after joining. *)
Lemma no_lobby_events_once_connected_witness :
  connected (ui Demo.chatting) = true
  /\ Forall (fun e => ev_name e <> "create-room" /\ ev_name e <> "join-room")
            (emittedSince Demo.chatting
               (drive upper_ascii Demo.uuidAt
                  [ClickCreateRoom; ClickJoinRoom; SubmitMessage]
                  Demo.chatting)).
Proof.
  split; [reflexivity|].
  exact (no_lobby_events_once_connected Demo.number upper_ascii Demo.uuidAt
           [ClickCreateRoom; ClickJoinRoom; SubmitMessage]
           Demo.chatting eq_refl).
Defined.

(** Witness of X10: mount, join, type, send. *)
Lemma sends_carry_the_bound_identity_witness :
  let acts := [Receive (joined_room (js "AB12CD") []);
               TypeMessage (js "hi"); SubmitMessage] in
  let w := Demo.act Mount (Demo.fresh ∅) in
  existsb isMount acts = false
  /\ emittedSince (Demo.fresh ∅) w
     = [mkEmit "set-user-id" [VStr (userId (ui w))]]
  /\ Forall (fun e => ev_name e = "send-message" ->
                      exists rc msg,
                        ev_args e = [sendMessagePayload rc msg (userId (ui w))])
            (emittedSince w (Demo.play acts w)).
Proof.
  split; [reflexivity|].
  exact (sends_carry_the_bound_identity Demo.number upper_ascii Demo.uuidAt
           [Receive (joined_room (js "AB12CD") []);
            TypeMessage (js "hi"); SubmitMessage]
           (Demo.fresh ∅) eq_refl).
Defined.


(** Witness of X13: three blanks are left alone. *)
Lemma submit_is_noop_iff_only_blanks_witness :
  forallb isWhiteSpace (message (ui Demo.blank)) = true
  /\ exec sendMessage Demo.blank = Demo.blank.
Proof.
  split; [reflexivity|].
  apply (proj2 (submit_is_noop_iff_only_blanks Demo.number Demo.blank)).
  reflexivity.
Defined.

(** Witness of X14: a successful submit. *)
Lemma user_actions_keep_server_state_witness :
  let w' := Demo.act SubmitMessage Demo.chatting in
  triggerOf (@SubmitMessage Demo.number) <> None
  /\ roomCode (ui w') = js "AB12CD"
  /\ messages (ui w') = [Demo.hi]
  /\ connected (ui w') = true
  /\ users (ui w') = 2%Z
  /\ userId (ui w') = js "alice"
  /\ alerts w' = []
  /\ localStorage w' = localStorage Demo.chatting
  /\ uuidCalls w' = 0%nat.
Proof.
  split; [discriminate|].
  apply (user_actions_keep_server_state Demo.number upper_ascii Demo.uuidAt
           SubmitMessage Demo.chatting).
  discriminate.
Defined.

(** Witness of X15: the reply to Create. *)
Lemma room_created_keeps_lobby_witness :
  let w := Demo.act ClickCreateRoom (Demo.fresh ∅) in
  let w' := Demo.act (Receive (room_created (js "AB12CD"))) w in
  connected (ui w) = false
  /\ connected (ui w') = false
  /\ stringsOf (render (ui w')) = [js "AB12CD"]
  /\ handlersOf (render (ui w'))
     = [OnClick cb_createRoom; OnChange cb_handleInputChange;
        OnClick cb_joinRoom]
  /\ emitted w' = emitted w.
Proof.
  split; [reflexivity|].
  exact (room_created_keeps_lobby Demo.number upper_ascii Demo.uuidAt
           (js "AB12CD") (Demo.act ClickCreateRoom (Demo.fresh ∅)) eq_refl).
Defined.

(** Witness of X16: a theme preference survives the first mount. *)
Lemma only_chatUserId_is_written_witness :
  let w := Demo.fresh {[ js "theme" := js "dark" ]} in
  js "theme" <> chatUserId
  /\ localStorage (Demo.play [Mount; ClickCreateRoom] w) !! js "theme"
     = localStorage w !! js "theme".
Proof.
  split; [discriminate|].
  apply (only_chatUserId_is_written Demo.number upper_ascii Demo.uuidAt
           [Mount; ClickCreateRoom]
           (Demo.fresh {[ js "theme" := js "dark" ]}) (js "theme")).
  discriminate.
Defined.

(** Witness of X17: ["alice"] survives two remounts. *)
Lemma stored_identifier_is_stable_witness :
  let w' := Demo.play [Mount; SubmitMessage; Mount] Demo.chatting in
  localStorage Demo.chatting !! chatUserId = Some (js "alice")
  /\ js "alice" <> []
  /\ localStorage w' = localStorage Demo.chatting
  /\ uuidCalls w' = uuidCalls Demo.chatting
  /\ Forall (fun e => ev_name e = "set-user-id" ->
                      ev_args e = [VStr (js "alice")])
            (emittedSince Demo.chatting w').
Proof.
  split; [reflexivity|]. split; [discriminate|].
  apply (stored_identifier_is_stable Demo.number upper_ascii Demo.uuidAt
           [Mount; SubmitMessage; Mount] Demo.chatting (js "alice")).
  - reflexivity.
  - discriminate.
Defined.

(** Witness of X18: a code typed in the lobby, a message sent in the chat. *)
Lemma inputs_show_what_will_be_sent_witness :
  (connected (ui (Demo.fresh ∅)) = false
   /\ valuesOf (render (ui (Demo.act (TypeInputCode (js "ab12cd"))
                                     (Demo.fresh ∅))))
      = [js "ab12cd"])
  /\ (connected (ui Demo.chatting) = true
      /\ trim (message (ui Demo.chatting)) <> []
      /\ valuesOf (render (ui (Demo.act SubmitMessage Demo.chatting))) = [[]]).
Proof.
  split.
  - split; [reflexivity|].
    exact (proj1 (proj1 (inputs_show_what_will_be_sent Demo.number upper_ascii
                           Demo.uuidAt (js "ab12cd") (Demo.fresh ∅))
                        eq_refl)).
  - split; [reflexivity|]. split; [vm_compute; discriminate|].
    apply (proj2 (proj2 (inputs_show_what_will_be_sent Demo.number upper_ascii
                           Demo.uuidAt [] Demo.chatting)
                        eq_refl)).
    vm_compute; discriminate.
Defined.
